(** * DAGNode: the vertex payload of a circuit DAG

    A shallow embedding of [qiskit/dagcircuit/dagnode.py].

    A [DAGNode] object holds two attributes that no method ever reassigns
    ([_node_id] and the reference [data_dict]); everything that changes after
    construction changes inside the referenced Python dict.  The embedding
    therefore keeps a node as an immutable record of its own address
    ([id(self)]), its [_node_id] and the address of its dict, and puts the
    dicts in a heap, so that two nodes built over the same dict object share
    it exactly as they do in Python. *)

From Stdlib Require Import ZArith String DecimalString DecimalZ.
From stdpp Require Import gmap strings list fin_maps.

Open Scope string_scope.
Open Scope Z_scope.

(** Exceptions the module can surface: [QiskitError] is raised by the code
    itself, [KeyError] by a dict subscript on a missing key and [TypeError]
    by [set(...)] applied to something that is not an operand list. *)
Inductive Exn := QiskitError | KeyError | TypeError.

Inductive Outcome (A : Type) :=
  | Ok (a : A)
  | Raise (e : Exn).
Arguments Ok {A} a.
Arguments Raise {A} e.

Section DAGNode.

(** The collaborators the module only refers to.  [Instruction] is the
    type of the instruction objects: two of them are the same object ([is])
    exactly when they are equal here, and [instr_eqb] is their own
    [__eq__], about which nothing is assumed.  Bits (qubits and clbits) are
    hashable and compared by value; so are the classical registers. *)
Context {Instruction : Type} `{EqDecision Instruction}.
Context (instr_eqb : Instruction → Instruction → bool).
Context `{Countable Bit}.
Context `{EqDecision Register}.

(** The builtin [hash] on the integers that [id] returns. *)
Variable hash : Z → Z.

(** ** Values stored in [data_dict] *)

Inductive Value :=
  | VNone
  | VStr (s : string)
  | VOp (i : Instruction)
  | VBits (l : list Bit)
  | VCond (r : Register) (v : Z)
  | VBit (b : Bit).

(** Python's [==] on these values: strings, lists and tuples by content,
    instructions by their own [__eq__], and values of unrelated types are
    unequal. *)
Definition value_eqb (x y : Value) : bool :=
  match x, y with
  | VNone, VNone => true
  | VStr s, VStr t => bool_decide (s = t)
  | VOp i, VOp j => instr_eqb i j
  | VBits l, VBits k => bool_decide (l = k)
  | VCond r v, VCond s w => bool_decide (r = s) && (v =? w)
  | VBit b, VBit c => bool_decide (b = c)
  | _, _ => false
  end.

Definition value_neb (x y : Value) : bool := negb (value_eqb x y).

(** What CPython's containers use to compare two items,
    [PyObject_RichCompareBool(x, y, Py_EQ)]: [x is y or x == y].  On an
    instruction the identity test counts, since its [__eq__] is free to
    deny that an object equals itself; on the other values [==] already
    holds between a value and itself, so the test adds nothing. *)
Definition value_same (x y : Value) : bool :=
  match x, y with
  | VOp i, VOp j => bool_decide (i = j) || instr_eqb i j
  | _, _ => value_eqb x y
  end.

Abbreviation Dict := (gmap string Value).
Abbreviation Heap := (gmap Z (gmap string Value)).

(** [k in d], [d.get(k, default)] and [d == d'] on dicts.  Dict equality
    is CPython's: equal sizes, and every entry of the left dict has a key
    in the right one whose value is the same object or an equal one. *)
Definition dict_contains (d : Dict) (k : string) : bool :=
  bool_decide (is_Some (d !! k)).

Definition dict_get (d : Dict) (k : string) (dflt : Value) : Value :=
  default dflt (d !! k).

Definition entry_matches (d2 : Dict) (kv : string * Value) : bool :=
  match d2 !! kv.1 with
  | Some w => value_same kv.2 w
  | None => false
  end.

Definition dict_eqb (d1 d2 : Dict) : bool :=
  (size d1 =? size d2)%nat && forallb (entry_matches d2) (map_to_list d1).

(** [x in [v1, v2, ...]] on a list literal of strings, for which the
    identity test of [in] adds nothing to [==]. *)
Definition list_contains (x : Value) (l : list Value) : bool :=
  existsb (λ y, value_eqb y x) l.

(** ** The heap of dicts and the monad of the methods

    A Python reference never dangles, so the heap is read totally: an
    address nobody wrote holds the empty dict. *)
Definition M (A : Type) : Type := Heap → Outcome A * Heap.

Definition ret {A} (a : A) : M A := λ h, (Ok a, h).
Definition raise {A} (e : Exn) : M A := λ h, (Raise e, h).
Definition bind {A B} (m : M A) (k : A → M B) : M B :=
  λ h, match m h with
       | (Ok a, h') => k a h'
       | (Raise e, h') => (Raise e, h')
       end.

Notation "'let*' x ':=' m 'in' k" := (bind m (λ x, k))
  (at level 10, x name, m at level 100, k at level 200).

Definition load (a : Z) : M Dict := λ h, (Ok (h !!! a), h).
Definition store (a : Z) (d : Dict) : M unit := λ h, (Ok tt, <[a := d]> h).

(** [d[k]] and [d[k] = v] through a reference. *)
Definition getitem (a : Z) (k : string) : M Value :=
  let* d := load a in
  match d !! k with
  | Some v => ret v
  | None => raise KeyError
  end.

Definition setitem (a : Z) (k : string) (v : Value) : M unit :=
  let* d := load a in store a (<[k := v]> d).

(** ** The class *)

Record DAGNode := mkDAGNode {
  self_id : Z;      (* id(self) *)
  _node_id : Z;
  data_dict : Z     (* the dict object the node refers to *)
}.

(** [self] is the address of the object being initialised, [data_dict] the
    reference passed by the caller (stored as it is, not copied), and [nid]
    the identity, [-1] when the caller gives none. *)
Definition __init__ (self : Z) (data_dict : Z) (nid : Z) : DAGNode :=
  {| self_id := self; _node_id := nid; data_dict := data_dict |}.

Definition type (self : DAGNode) : M Value :=
  let* d := load self.(data_dict) in ret (dict_get d "type" VNone).

Definition op (self : DAGNode) : M Value :=
  let* d := load self.(data_dict) in
  let* bad :=
    if negb (dict_contains d "type") then ret true
    else let* t := getitem self.(data_dict) "type" in
         ret (value_neb t (VStr "op")) in
  if bad then raise QiskitError
  else ret (dict_get d "op" VNone).

Definition name (self : DAGNode) : M Value :=
  let* d := load self.(data_dict) in ret (dict_get d "name" VNone).

Definition name_setter (self : DAGNode) (new_name : string) : M unit :=
  setitem self.(data_dict) "name" (VStr new_name).

Definition qargs (self : DAGNode) : M Value :=
  let* d := load self.(data_dict) in ret (dict_get d "qargs" (VBits [])).

Definition qargs_setter (self : DAGNode) (new_qargs : list Bit) : M unit :=
  setitem self.(data_dict) "qargs" (VBits new_qargs).

Definition cargs (self : DAGNode) : M Value :=
  let* d := load self.(data_dict) in ret (dict_get d "cargs" (VBits [])).

Definition condition (self : DAGNode) : M Value :=
  let* d := load self.(data_dict) in ret (dict_get d "condition" VNone).

Definition wire (self : DAGNode) : M Value :=
  let* t := getitem self.(data_dict) "type" in
  if negb (list_contains t [VStr "in"; VStr "out"]) then raise QiskitError
  else let* d := load self.(data_dict) in ret (dict_get d "wire" VNone).

Definition __lt__ (self other : DAGNode) : bool :=
  self.(_node_id) <? other.(_node_id).

Definition __gt__ (self other : DAGNode) : bool :=
  self.(_node_id) >? other.(_node_id).

Definition __hash__ (self : DAGNode) : Z := hash self.(self_id).

(** The class defines no [__eq__]: [==] is the one inherited from
    [object], which compares instances by identity. *)
Definition __eq__ (self other : DAGNode) : bool :=
  self.(self_id) =? other.(self_id).

(** How a set or a dict decides that [other] is the key [self] it already
    holds: equal hashes, and the same object or [==]. *)
Definition same_key (self other : DAGNode) : bool :=
  (__hash__ self =? __hash__ other)
  && ((self.(self_id) =? other.(self_id)) || __eq__ self other).

(** [set(v)] for [v] an operand list, the type the ['qargs'] entry is
    annotated with.  [set(None)] is a [TypeError], and the embedding gives
    that outcome to every value that is not a list; Python would iterate a
    string or a tuple instead.  Such payloads are outside the annotation,
    and what is proved of a result of the barrier branch is proved of
    payloads within it ([qargs_typed]). *)
Definition py_set (v : Value) : M (gset Bit) :=
  match v with
  | VBits l => ret (list_to_set l)
  | _ => raise TypeError
  end.

Definition semantic_eq (node1 node2 : DAGNode) : M bool :=
  let* n1 := name node1 in
  let* barriers :=
    if value_eqb (VStr "barrier") n1
    then let* n2 := name node2 in ret (value_eqb n1 n2)
    else ret false in
  if barriers then
    let* q1 := qargs node1 in
    let* s1 := py_set q1 in
    let* q2 := qargs node2 in
    let* s2 := py_set q2 in
    ret (bool_decide (s1 = s2))
  else
    let* d1 := load node1.(data_dict) in
    let* d2 := load node2.(data_dict) in
    ret (dict_eqb d1 d2).

(** The accessors as one family, to talk about "every accessor". *)
Inductive Accessor :=
  AType | AOp | AName | AQargs | ACargs | ACondition | AWire.

Definition get (acc : Accessor) : DAGNode → M Value :=
  match acc with
  | AType => type
  | AOp => op
  | AName => name
  | AQargs => qargs
  | ACargs => cargs
  | ACondition => condition
  | AWire => wire
  end.

(** The dict entry an accessor reads besides ['type']. *)
Definition key_of (acc : Accessor) : string :=
  match acc with
  | AType => "type"
  | AOp => "op"
  | AName => "name"
  | AQargs => "qargs"
  | ACargs => "cargs"
  | ACondition => "condition"
  | AWire => "wire"
  end.

(** Field-by-field agreement of two payloads, in the words of the
    specification: every field is present in both or absent in both, and
    where present the two values are the same reference or are equal for
    [==]. *)
Definition field_agrees (x y : option Value) : Prop :=
  match x, y with
  | Some v, Some w => value_same v w = true
  | None, None => True
  | _, _ => False
  end.

Definition fields_agree (d1 d2 : Dict) : Prop :=
  ∀ k : string, field_agrees (d1 !! k) (d2 !! k).

(** The same with [==] alone, the operation compared by the equality of
    its own type and by nothing else. *)
Definition field_equal (x y : option Value) : Prop :=
  match x, y with
  | Some v, Some w => value_eqb v w = true
  | None, None => True
  | _, _ => False
  end.

Definition fields_equal (d1 d2 : Dict) : Prop :=
  ∀ k : string, field_equal (d1 !! k) (d2 !! k).

(** The payload respects the annotation of [qargs]: the entry, when
    present, is a list of bits. *)
Definition qargs_typed (d : Dict) : Prop :=
  ∀ v, d !! "qargs" = Some v → ∃ l, v = VBits l.

Definition cargs_typed (d : Dict) : Prop :=
  ∀ v, d !! "cargs" = Some v → ∃ l, v = VBits l.

(** [str(id(self))]: the decimal numeral of the address of the instance. *)
Definition __str__ (self : DAGNode) : string :=
  NilEmpty.string_of_int (Z.to_int self.(self_id)).

(** Two outcomes of an accessor that agree: the same exception, or two
    values of which one is the other or equals it for [==]. *)
Definition outcome_agrees (x y : Outcome Value) : Prop :=
  match x, y with
  | Ok v, Ok w => value_same v w = true
  | Raise e, Raise e' => e = e'
  | _, _ => False
  end.

(** The same with [==] alone on the values. *)
Definition outcome_equal (x y : Outcome Value) : Prop :=
  match x, y with
  | Ok v, Ok w => value_eqb v w = true
  | Raise e, Raise e' => e = e'
  | _, _ => False
  end.

End DAGNode.

(** * A concrete vocabulary

    A gate object is its name and gates are compared by name, bits are
    numbered, registers are named, and [hash] is the identity on
    addresses.  The nodes below are built the way [DAGCircuit] builds
    them. *)
Module Circuit.

Abbreviation Val := (@Value string nat string).
Abbreviation Payload := (gmap string Val).
Abbreviation Store := (gmap Z (gmap string Val)).

Definition gate_eqb : string → string → bool := String.eqb.

Definition op_payload (gate : string) (qubits : list nat) : Payload :=
  list_to_map
    [("type", VStr "op"); ("op", VOp gate); ("name", VStr gate);
     ("qargs", VBits qubits); ("cargs", VBits []); ("condition", VNone)].

Definition in_payload (wire_name : string) (bit : nat) : Payload :=
  list_to_map
    [("type", VStr "in"); ("name", VStr wire_name); ("wire", VBit bit)].

(** Dict objects at addresses 1 to 7, and a few nodes over them;
    [x_alias] is a second node over the dict object of [x01]. *)
Definition store0 : Store :=
  list_to_map
    [(1, op_payload "x" [0; 1]%nat);
     (2, op_payload "x" [0; 1]%nat);
     (3, op_payload "x" [1; 0]%nat);
     (4, op_payload "barrier" [0; 1]%nat);
     (5, op_payload "barrier" [1; 0]%nat);
     (6, op_payload "barrier" [0; 0]%nat);
     (7, op_payload "barrier" [0]%nat);
     (8, in_payload "q[0]" 0%nat);
     (9, list_to_map [("type", VStr "in"); ("name", VStr "q[0]")]);
     (10, list_to_map [("type", VStr "in"); ("name", VStr "q[0]");
                       ("qargs", VBits [])])].

Definition x01 : DAGNode := __init__ 101 1 1.
Definition x01' : DAGNode := __init__ 102 2 2.
Definition x10 : DAGNode := __init__ 103 3 3.
Definition barrier01 : DAGNode := __init__ 104 4 4.
Definition barrier10 : DAGNode := __init__ 105 5 5.
Definition barrier00 : DAGNode := __init__ 106 6 6.
Definition barrier0 : DAGNode := __init__ 107 7 7.
Definition input0 : DAGNode := __init__ 108 8 8.
Definition bare : DAGNode := __init__ 109 9 9.
Definition bare_empty : DAGNode := __init__ 110 10 10.
Definition x_alias : DAGNode := __init__ 111 1 11.
Definition blank : DAGNode := __init__ 112 12 (-1).

(** A second node built without an identity, and a dict that holds [None]
    where a node type is expected. *)
Definition blank' : DAGNode := __init__ 113 13 (-1).

Definition store1 : Store :=
  list_to_map
    [(1, op_payload "x" [0; 1]%nat);
     (2, list_to_map [("type", VNone)]);
     (3, list_to_map [("type", VStr "op")])].

Definition untyped : DAGNode := __init__ 201 2 20.
Definition op_without_op : DAGNode := __init__ 202 3 21.

End Circuit.

(** * Properties *)
Section Properties.

Context {Instruction : Type} `{EqDecision Instruction}.
Context (instr_eqb : Instruction → Instruction → bool).
Context `{Countable Bit}.
Context `{EqDecision Register}.
Variable hash : Z → Z.

Abbreviation Val := (@Value Instruction Bit Register).
Abbreviation Dict := (gmap string (@Value Instruction Bit Register)).
Abbreviation Heap := (gmap Z (gmap string (@Value Instruction Bit Register))).

(** ** What one call computes *)

Lemma type_run (self : DAGNode) (h : Heap) :
  type self h = (Ok (dict_get (h !!! data_dict self) "type" VNone), h).
Proof. reflexivity. Qed.

Lemma name_run (self : DAGNode) (h : Heap) :
  name self h = (Ok (dict_get (h !!! data_dict self) "name" VNone), h).
Proof. reflexivity. Qed.

Lemma qargs_run (self : DAGNode) (h : Heap) :
  qargs self h = (Ok (dict_get (h !!! data_dict self) "qargs" (VBits [])), h).
Proof. reflexivity. Qed.

Lemma cargs_run (self : DAGNode) (h : Heap) :
  cargs self h = (Ok (dict_get (h !!! data_dict self) "cargs" (VBits [])), h).
Proof. reflexivity. Qed.

Lemma condition_run (self : DAGNode) (h : Heap) :
  condition self h
  = (Ok (dict_get (h !!! data_dict self) "condition" VNone), h).
Proof. reflexivity. Qed.

Lemma op_run (self : DAGNode) (h : Heap) :
  op instr_eqb self h =
  (match (h !!! data_dict self) !! "type" with
   | Some t =>
       if value_eqb instr_eqb t (VStr "op")
       then Ok (dict_get (h !!! data_dict self) "op" VNone)
       else Raise QiskitError
   | None => Raise QiskitError
   end, h).
Proof.
  unfold op, getitem, bind, load, dict_contains, value_neb; simpl.
  destruct ((h !!! data_dict self) !! "type") as [t|] eqn:Ht.
  - rewrite bool_decide_eq_true_2 by eauto. simpl. rewrite Ht.
    unfold ret, raise.
    destruct (value_eqb instr_eqb t (VStr "op")); reflexivity.
  - rewrite bool_decide_eq_false_2 by (intros [? ?]; discriminate).
    reflexivity.
Qed.

Lemma wire_run (self : DAGNode) (h : Heap) :
  wire instr_eqb self h =
  (match (h !!! data_dict self) !! "type" with
   | Some t =>
       if list_contains instr_eqb t [VStr "in"; VStr "out"]
       then Ok (dict_get (h !!! data_dict self) "wire" VNone)
       else Raise QiskitError
   | None => Raise KeyError
   end, h).
Proof.
  unfold wire, getitem, bind, load; cbv beta.
  destruct ((h !!! data_dict self) !! "type") as [t|]; [|reflexivity].
  unfold ret, raise.
  generalize (list_contains instr_eqb t [VStr "in"; VStr "out"]).
  intros []; reflexivity.
Qed.

Lemma setitem_run (a : Z) (k : string) (v : Val) (h : Heap) :
  setitem a k v h = (Ok tt, <[a := <[k := v]> (h !!! a)]> h).
Proof. reflexivity. Qed.

Lemma semantic_eq_run (node1 node2 : DAGNode) (h : Heap) :
  semantic_eq instr_eqb node1 node2 h =
  (let d1 := h !!! data_dict node1 in
   let d2 := h !!! data_dict node2 in
   if value_eqb instr_eqb (VStr "barrier") (dict_get d1 "name" VNone)
      && value_eqb instr_eqb (dict_get d1 "name" VNone)
           (dict_get d2 "name" VNone)
   then
     match dict_get d1 "qargs" (VBits []), dict_get d2 "qargs" (VBits []) with
     | VBits l1, VBits l2 =>
         Ok (bool_decide ((list_to_set l1 : gset Bit) = list_to_set l2))
     | _, _ => Raise TypeError
     end
   else Ok (dict_eqb instr_eqb d1 d2), h).
Proof.
  cbv beta iota zeta
    delta [semantic_eq bind name qargs load ret py_set raise].
  destruct (value_eqb instr_eqb (VStr "barrier") _); cbv beta iota;
    [|reflexivity].
  destruct (value_eqb instr_eqb _ _); cbv beta iota; [|reflexivity].
  destruct (dict_get (h !!! data_dict node1) "qargs" (VBits []));
    cbv beta iota; try reflexivity.
  destruct (dict_get (h !!! data_dict node2) "qargs" (VBits []));
    reflexivity.
Qed.

(** Reading never writes. *)
Lemma get_heap (acc : Accessor) (self : DAGNode) (h : Heap) :
  (get instr_eqb acc self h).2 = h.
Proof.
  destruct acc; simpl; try reflexivity.
  - rewrite op_run. reflexivity.
  - rewrite wire_run. reflexivity.
Qed.

(** An accessor looks at two entries only: ['type'] and its own. *)
Lemma get_depends (acc : Accessor) (n1 n2 : DAGNode) (h1 h2 : Heap) :
  (h1 !!! data_dict n1) !! "type" = (h2 !!! data_dict n2) !! "type" →
  (h1 !!! data_dict n1) !! key_of acc = (h2 !!! data_dict n2) !! key_of acc →
  (get instr_eqb acc n1 h1).1 = (get instr_eqb acc n2 h2).1.
Proof.
  intros Ht Hk.
  destruct acc; simpl in *;
    rewrite ?type_run, ?name_run, ?qargs_run, ?cargs_run, ?condition_run,
      ?op_run, ?wire_run; unfold dict_get; simpl;
    rewrite ?Ht, ?Hk; reflexivity.
Qed.

(** ** Equality of values and of dicts *)

Lemma value_eqb_str (s : string) (v : Val) :
  value_eqb instr_eqb (VStr s) v = true ↔ v = VStr s.
Proof.
  destruct v; simpl; try (split; [discriminate | congruence]).
  rewrite bool_decide_eq_true. split; congruence.
Qed.

Lemma value_eqb_refl_str (s : string) :
  value_eqb instr_eqb (VStr s : Val) (VStr s) = true.
Proof. apply value_eqb_str. reflexivity. Qed.

Lemma value_eqb_sym_str (v : Val) (s : string) :
  value_eqb instr_eqb v (VStr s) = value_eqb instr_eqb (VStr s) v.
Proof.
  destruct v; simpl; try reflexivity.
  apply bool_decide_ext. split; congruence.
Qed.

Lemma value_eqb_refl :
  (∀ i, instr_eqb i i = true) → ∀ v : Val, value_eqb instr_eqb v v = true.
Proof.
  intros Hrefl [| s | i | l | r v | b]; simpl; auto;
    rewrite ?bool_decide_eq_true_2, ?Z.eqb_refl by reflexivity; reflexivity.
Qed.

Lemma value_eqb_sym :
  (∀ i j, instr_eqb i j = instr_eqb j i) →
  ∀ x y : Val, value_eqb instr_eqb x y = value_eqb instr_eqb y x.
Proof.
  intros Hsym x y. destruct x, y; simpl; auto.
  - apply bool_decide_ext. split; congruence.
  - apply bool_decide_ext. split; congruence.
  - rewrite Z.eqb_sym. f_equal. apply bool_decide_ext. split; congruence.
  - apply bool_decide_ext. split; congruence.
Qed.

(** [is or ==] against [==]: the first follows from the second, holds
    between a value and itself whatever [__eq__] says, and is the second
    when [__eq__] never denies that an instruction equals itself. *)
Lemma value_same_of_eqb (x y : Val) :
  value_eqb instr_eqb x y = true → value_same instr_eqb x y = true.
Proof.
  destruct x, y; simpl; auto. intros ->. apply orb_true_r.
Qed.

Lemma value_same_refl (v : Val) : value_same instr_eqb v v = true.
Proof.
  destruct v as [| s | i | l | r v | b]; simpl;
    rewrite ?bool_decide_eq_true_2, ?Z.eqb_refl by reflexivity; reflexivity.
Qed.

Lemma value_same_eqb :
  (∀ i, instr_eqb i i = true) →
  ∀ x y : Val, value_same instr_eqb x y = value_eqb instr_eqb x y.
Proof.
  intros Hrefl x y. destruct x, y; simpl; try reflexivity.
  destruct (bool_decide_reflect (i = i0)) as [-> | _]; simpl;
    [rewrite Hrefl|]; reflexivity.
Qed.

Lemma value_same_sym :
  (∀ i j, instr_eqb i j = instr_eqb j i) →
  ∀ x y : Val, value_same instr_eqb x y = value_same instr_eqb y x.
Proof.
  intros Hsym x y.
  destruct x, y; try apply (value_eqb_sym Hsym). simpl.
  rewrite (Hsym i i0). f_equal. apply bool_decide_ext. split; congruence.
Qed.

Lemma value_same_trans :
  (∀ i j k, instr_eqb i j = true → instr_eqb j k = true →
            instr_eqb i k = true) →
  ∀ x y z : Val,
    value_same instr_eqb x y = true → value_same instr_eqb y z = true →
    value_same instr_eqb x z = true.
Proof.
  intros Htrans x y z.
  destruct x, y; simpl; try discriminate; destruct z; simpl;
    try discriminate; auto.
  - intros ->%bool_decide_eq_true. auto.
  - intros [->%bool_decide_eq_true | Hij]%orb_true_iff; [auto|].
    intros [<-%bool_decide_eq_true | Hjk]%orb_true_iff.
    + rewrite Hij. apply orb_true_r.
    + rewrite (Htrans _ _ _ Hij Hjk). apply orb_true_r.
  - intros ->%bool_decide_eq_true. auto.
  - intros [->%bool_decide_eq_true ->%Z.eqb_eq]%andb_true_iff. auto.
  - intros ->%bool_decide_eq_true. auto.
Qed.

(** Two values that are the same or equal compare alike with a string. *)
Lemma value_same_shape (v w : Val) (s : string) :
  value_same instr_eqb v w = true →
  value_eqb instr_eqb v (VStr s) = value_eqb instr_eqb w (VStr s)
  ∧ value_eqb instr_eqb (VStr s) v = value_eqb instr_eqb (VStr s) w.
Proof.
  destruct v, w; simpl; try discriminate; auto.
  intros ->%bool_decide_eq_true. auto.
Qed.

Lemma field_agrees_sym :
  (∀ i j, instr_eqb i j = instr_eqb j i) →
  ∀ x y : option Val,
    field_agrees instr_eqb x y → field_agrees instr_eqb y x.
Proof.
  intros Hsym [v|] [w|]; simpl; auto.
  rewrite (value_same_sym Hsym w v). auto.
Qed.

Lemma fields_agree_equal :
  (∀ i, instr_eqb i i = true) →
  ∀ d1 d2 : Dict,
    fields_agree instr_eqb d1 d2 ↔ fields_equal instr_eqb d1 d2.
Proof.
  intros Hrefl d1 d2. unfold fields_agree, fields_equal.
  apply forall_proper. intros k.
  destruct (d1 !! k), (d2 !! k); simpl; try reflexivity.
  rewrite (value_same_eqb Hrefl). reflexivity.
Qed.

Lemma entry_in_dict (d : Dict) (k : string) (v : Val) :
  In (k, v) (map_to_list d) ↔ d !! k = Some v.
Proof. rewrite <- list_elem_of_In. apply elem_of_map_to_list. Qed.

(** CPython's dict comparison decides field-by-field agreement. *)
Lemma dict_eqb_spec (d1 d2 : Dict) :
  dict_eqb instr_eqb d1 d2 = true ↔ fields_agree instr_eqb d1 d2.
Proof.
  unfold dict_eqb, fields_agree.
  rewrite andb_true_iff, Nat.eqb_eq, forallb_forall. split.
  - intros [Hsize Hall].
    assert (Hsub : dom d1 ⊆ dom d2).
    { intros k [v Hv]%elem_of_dom. apply elem_of_dom.
      specialize (Hall (k, v) (proj2 (entry_in_dict d1 k v) Hv)).
      unfold entry_matches in Hall; simpl in Hall.
      destruct (d2 !! k); [eauto | discriminate]. }
    assert (Hdom : dom d1 = dom d2).
    { apply set_subseteq_size_eq; [exact Hsub|].
      rewrite !size_dom. lia. }
    intros k. destruct (d1 !! k) as [v|] eqn:Hk; simpl.
    + specialize (Hall (k, v) (proj2 (entry_in_dict d1 k v) Hk)).
      unfold entry_matches in Hall; simpl in Hall.
      destruct (d2 !! k); [exact Hall | discriminate].
    + apply not_elem_of_dom in Hk. rewrite Hdom in Hk.
      apply not_elem_of_dom in Hk. rewrite Hk. exact I.
  - intros Hagree. split.
    + rewrite <- !size_dom. f_equal. apply set_eq. intros k.
      rewrite !elem_of_dom. specialize (Hagree k).
      destruct (d1 !! k), (d2 !! k); simpl in Hagree;
        try contradiction; split; intros [? ?]; try discriminate; eauto.
    + intros [k v] Hin%entry_in_dict. specialize (Hagree k).
      unfold entry_matches; simpl. rewrite Hin in Hagree.
      destruct (d2 !! k); simpl in Hagree; [exact Hagree | contradiction].
Qed.

(** A dict equals itself, whatever the [__eq__] of what it holds. *)
Lemma dict_eqb_refl (d : Dict) : dict_eqb instr_eqb d d = true.
Proof.
  apply dict_eqb_spec. intros k.
  destruct (d !! k); simpl; auto using value_same_refl.
Qed.

Lemma dict_eqb_sym :
  (∀ i j, instr_eqb i j = instr_eqb j i) →
  ∀ d1 d2 : Dict, dict_eqb instr_eqb d1 d2 = dict_eqb instr_eqb d2 d1.
Proof.
  intros Hsym d1 d2. apply eq_true_iff_eq. rewrite !dict_eqb_spec.
  split; intros Hagree k; apply (field_agrees_sym Hsym), Hagree.
Qed.

(** Dicts of different sizes are never equal, whatever [==] does on the
    values. *)
Lemma dict_eqb_size (d1 d2 : Dict) :
  size d1 ≠ size d2 → dict_eqb instr_eqb d1 d2 = false.
Proof.
  intros Hne. unfold dict_eqb.
  rewrite (proj2 (Nat.eqb_neq _ _) Hne). reflexivity.
Qed.

(** ** The barrier branch of [semantic_eq] *)

Lemma name_is (self : DAGNode) (h : Heap) (v : Val) :
  name self h = (Ok v, h) ↔ dict_get (h !!! data_dict self) "name" VNone = v.
Proof. rewrite name_run. split; congruence. Qed.

Lemma qargs_is (self : DAGNode) (h : Heap) (v : Val) :
  qargs self h = (Ok v, h)
  ↔ dict_get (h !!! data_dict self) "qargs" (VBits []) = v.
Proof. rewrite qargs_run. split; congruence. Qed.

Lemma barrier_test (n1 n2 : Val) :
  value_eqb instr_eqb (VStr "barrier") n1 && value_eqb instr_eqb n1 n2 = true
  ↔ n1 = VStr "barrier" ∧ n2 = VStr "barrier".
Proof.
  rewrite andb_true_iff, value_eqb_str. split.
  - intros [-> Hn2]. apply value_eqb_str in Hn2. auto.
  - intros [-> ->]. split; [reflexivity|]. apply value_eqb_str. reflexivity.
Qed.

Lemma semantic_eq_barrier_run (a b : DAGNode) (h : Heap) (l1 l2 : list Bit) :
  name a h = (Ok (VStr "barrier"), h) →
  name b h = (Ok (VStr "barrier"), h) →
  qargs a h = (Ok (VBits l1), h) →
  qargs b h = (Ok (VBits l2), h) →
  semantic_eq instr_eqb a b h
  = (Ok (bool_decide ((list_to_set l1 : gset Bit) = list_to_set l2)), h).
Proof.
  intros Ha%name_is Hb%name_is Hqa%qargs_is Hqb%qargs_is.
  rewrite semantic_eq_run. cbv zeta. rewrite Ha, Hb, Hqa, Hqb.
  rewrite (proj2 (barrier_test _ _)) by auto. reflexivity.
Qed.

Lemma same_set_iff (l1 l2 : list Bit) :
  (list_to_set l1 : gset Bit) = list_to_set l2 ↔ ∀ q, q ∈ l1 ↔ q ∈ l2.
Proof.
  rewrite set_eq. apply forall_proper. intros q.
  rewrite !elem_of_list_to_set. reflexivity.
Qed.

Lemma semantic_eq_payload_run (a b : DAGNode) (h : Heap) (n1 n2 : Val) :
  name a h = (Ok n1, h) →
  name b h = (Ok n2, h) →
  ¬ (n1 = VStr "barrier" ∧ n2 = VStr "barrier") →
  semantic_eq instr_eqb a b h
  = (Ok (dict_eqb instr_eqb (h !!! data_dict a) (h !!! data_dict b)), h).
Proof.
  intros Ha%name_is Hb%name_is Hnot.
  rewrite semantic_eq_run. cbv zeta. rewrite Ha, Hb.
  destruct (value_eqb instr_eqb (VStr "barrier") n1
            && value_eqb instr_eqb n1 n2) eqn:E;
    [|reflexivity].
  apply barrier_test in E. contradiction.
Qed.

(** ** Semantic equivalence *)

(** C1. When both nodes are named "barrier", [semantic_eq] returns a
    boolean that is true exactly when the two quantum operand lists have
    the same elements.  The heap is arbitrary, so the operand order and
    all the other entries of both payloads play no part: in particular
    any reordering of the operands of one node is accepted. *)
Theorem semantic_eq_barrier (a b : DAGNode) (h : Heap) (l1 l2 : list Bit) :
  name a h = (Ok (VStr "barrier"), h) →
  name b h = (Ok (VStr "barrier"), h) →
  qargs a h = (Ok (VBits l1), h) →
  qargs b h = (Ok (VBits l2), h) →
  (∃ r, semantic_eq instr_eqb a b h = (Ok r, h)
        ∧ (r = true ↔ ∀ q, q ∈ l1 ↔ q ∈ l2))
  ∧ (l1 ≡ₚ l2 → semantic_eq instr_eqb a b h = (Ok true, h)).
Proof.
  intros Ha Hb Hqa Hqb.
  rewrite (semantic_eq_barrier_run a b h l1 l2 Ha Hb Hqa Hqb). split.
  - eexists. split; [reflexivity|].
    rewrite bool_decide_eq_true. apply same_set_iff.
  - intros Hperm. rewrite bool_decide_eq_true_2; [reflexivity|].
    apply same_set_iff. intros q. rewrite Hperm. reflexivity.
Qed.

(** C9. Two nodes named "barrier" whose quantum operands are [q0, q0]
    and [q0] are [semantic_eq]: the comparison is on sets, so repetitions
    and the length of the operand list do not count. *)
Theorem semantic_eq_barrier_multiplicity (a b : DAGNode) (h : Heap) (q0 : Bit) :
  name a h = (Ok (VStr "barrier"), h) →
  name b h = (Ok (VStr "barrier"), h) →
  qargs a h = (Ok (VBits [q0; q0]), h) →
  qargs b h = (Ok (VBits [q0]), h) →
  semantic_eq instr_eqb a b h = (Ok true, h).
Proof.
  intros Ha Hb Hqa Hqb.
  rewrite (semantic_eq_barrier_run a b h _ _ Ha Hb Hqa Hqb).
  rewrite bool_decide_eq_true_2; [reflexivity|].
  apply same_set_iff. intros q. rewrite !elem_of_cons. tauto.
Qed.

(** C2. When the two nodes are not both named "barrier", [semantic_eq]
    returns a boolean that is true exactly when the two payload dicts
    agree field by field: the same keys, and under each key two values of
    which one is the other or equals it for [==] (lists in order).  When
    the instructions' [__eq__] holds between every instruction and itself,
    as a value equality does, this is agreement for [==] alone, the
    operation being compared by the equality of its own type.  Hence
    identical payloads are [semantic_eq], and payloads whose quantum
    operand lists differ, for instance by their order, are not. *)
Theorem semantic_eq_payload (a b : DAGNode) (h : Heap) (n1 n2 : Val) :
  name a h = (Ok n1, h) →
  name b h = (Ok n2, h) →
  ¬ (n1 = VStr "barrier" ∧ n2 = VStr "barrier") →
  ∃ r, semantic_eq instr_eqb a b h = (Ok r, h)
       ∧ (r = true
          ↔ fields_agree instr_eqb (h !!! data_dict a) (h !!! data_dict b))
       ∧ ((∀ i, instr_eqb i i = true) →
          (r = true
           ↔ fields_equal instr_eqb (h !!! data_dict a) (h !!! data_dict b)))
       ∧ (h !!! data_dict a = h !!! data_dict b → r = true)
       ∧ (∀ l1 l2,
            (h !!! data_dict a) !! "qargs" = Some (VBits l1) →
            (h !!! data_dict b) !! "qargs" = Some (VBits l2) →
            l1 ≠ l2 → r = false).
Proof.
  intros Ha Hb Hnot.
  rewrite (semantic_eq_payload_run a b h n1 n2 Ha Hb Hnot).
  eexists. split; [reflexivity|]. split; [apply dict_eqb_spec|].
  split; [|split].
  - intros Hrefl. rewrite dict_eqb_spec. apply (fields_agree_equal Hrefl).
  - intros ->. apply dict_eqb_refl.
  - intros l1 l2 H1 H2 Hne. apply not_true_is_false.
    intros Hagree%dict_eqb_spec. specialize (Hagree "qargs").
    rewrite H1, H2 in Hagree. simpl in Hagree.
    apply bool_decide_eq_true in Hagree. contradiction.
Qed.

(** C3. [semantic_eq] is symmetric: both argument orders give the same
    outcome in every heap, provided the instructions' own [__eq__] is
    symmetric. *)
Theorem semantic_eq_symmetric (a b : DAGNode) (h : Heap) :
  (∀ i j, instr_eqb i j = instr_eqb j i) →
  semantic_eq instr_eqb a b h = semantic_eq instr_eqb b a h.
Proof.
  intros Hsym. rewrite !semantic_eq_run. cbv zeta.
  set (n1 := dict_get (h !!! data_dict a) "name" VNone).
  set (n2 := dict_get (h !!! data_dict b) "name" VNone).
  destruct (value_eqb instr_eqb (VStr "barrier") n1
            && value_eqb instr_eqb n1 n2) eqn:E1.
  - apply barrier_test in E1 as [E1 E2].
    rewrite (proj2 (barrier_test n2 n1)) by auto.
    destruct (dict_get (h !!! data_dict a) "qargs" (VBits []));
      destruct (dict_get (h !!! data_dict b) "qargs" (VBits []));
      try reflexivity.
    do 2 f_equal. apply bool_decide_ext. split; congruence.
  - destruct (value_eqb instr_eqb (VStr "barrier") n2
              && value_eqb instr_eqb n2 n1) eqn:E2.
    + apply barrier_test in E2 as [E2 E3].
      rewrite (proj2 (barrier_test n1 n2)) in E1 by auto. discriminate.
    + rewrite (dict_eqb_sym Hsym). reflexivity.
Qed.

(** ** The accessors guarded by the node type *)

(** [op] is guarded in full: it raises [QiskitError] unless the payload
    has a ['type'] entry equal to ['op'], also when there is none. *)
Lemma op_unsupported (self : DAGNode) (h : Heap) :
  (h !!! data_dict self) !! "type" ≠ Some (VStr "op") →
  op instr_eqb self h = (Raise QiskitError, h).
Proof.
  intros Hty. rewrite op_run.
  destruct ((h !!! data_dict self) !! "type") as [t|]; [|reflexivity].
  destruct (value_eqb instr_eqb t (VStr "op")) eqn:E; [|reflexivity].
  destruct t; try discriminate. apply bool_decide_eq_true in E.
  congruence.
Qed.

Lemma op_supported (self : DAGNode) (h : Heap) :
  (h !!! data_dict self) !! "type" = Some (VStr "op") →
  op instr_eqb self h = (Ok (dict_get (h !!! data_dict self) "op" VNone), h).
Proof. intros Hty. rewrite op_run, Hty. reflexivity. Qed.

Lemma wire_supported (self : DAGNode) (h : Heap) (t : string) :
  (h !!! data_dict self) !! "type" = Some (VStr t) →
  t = "in" ∨ t = "out" →
  wire instr_eqb self h
  = (Ok (dict_get (h !!! data_dict self) "wire" VNone), h).
Proof. intros Hty [-> | ->]; rewrite wire_run, Hty; reflexivity. Qed.

(** With a ['type'] entry that is neither ['in'] nor ['out'], [wire]
    raises [QiskitError]. *)
Lemma wire_unsupported (self : DAGNode) (h : Heap) (t : Val) :
  (h !!! data_dict self) !! "type" = Some t →
  t ≠ VStr "in" → t ≠ VStr "out" →
  wire instr_eqb self h = (Raise QiskitError, h).
Proof.
  intros Hty Hin Hout. rewrite wire_run, Hty.
  destruct (list_contains instr_eqb t [VStr "in"; VStr "out"]) eqn:E;
    [|reflexivity].
  unfold list_contains in E. simpl in E.
  rewrite orb_false_r in E. apply orb_true_iff in E as [E | E];
    apply value_eqb_str in E; contradiction.
Qed.

(** C4. A node whose type is unset does not get [QiskitError] from
    [wire]: the subscript [data_dict['type']] raises [KeyError] before the
    guard is reached.  Here on a node built over an empty dict, with any
    identity. *)
Theorem wire_unset_type_raises_KeyError (self dd nid : Z) :
  wire instr_eqb (__init__ self dd nid) (∅ : Heap) = (Raise KeyError, ∅)
  ∧ op instr_eqb (__init__ self dd nid) (∅ : Heap)
    = (Raise QiskitError, ∅).
Proof. split; reflexivity. Qed.

(** C5. [qargs] and [cargs] return in every heap and on every node,
    without raising and without writing: they give the empty list when the
    payload has no entry for them, and the stored list otherwise. *)
Theorem operands_total (self : DAGNode) (h : Heap) :
  (∃ v, qargs self h = (Ok v, h)
        ∧ ((h !!! data_dict self) !! "qargs" = None → v = VBits [])
        ∧ (qargs_typed (h !!! data_dict self) → ∃ l, v = VBits l))
  ∧ (∃ v, cargs self h = (Ok v, h)
          ∧ ((h !!! data_dict self) !! "cargs" = None → v = VBits [])
          ∧ (cargs_typed (h !!! data_dict self) → ∃ l, v = VBits l)).
Proof.
  rewrite qargs_run, cargs_run. unfold dict_get, qargs_typed, cargs_typed.
  split; eexists; (split; [reflexivity|]).
  - destruct ((h !!! data_dict self) !! "qargs") as [v|]; simpl.
    + split; [discriminate | eauto].
    + eauto.
  - destruct ((h !!! data_dict self) !! "cargs") as [v|]; simpl.
    + split; [discriminate | eauto].
    + eauto.
Qed.

(** C6. The constructor stores the identity it is given, [<] and [>]
    compare exactly these identities, and so they inherit the strict
    total order of the integers: irreflexive, transitive, and deciding
    every pair of nodes with different identities.  The setters return no
    node and write only to the heap of dicts, so the identity of a node is
    the one it was built with. *)
Theorem order_by_node_id :
  (∀ self dd nid, _node_id (__init__ self dd nid) = nid)
  ∧ (∀ a b, __lt__ a b = true ↔ _node_id a < _node_id b)
  ∧ (∀ a b, __gt__ a b = true ↔ _node_id a > _node_id b)
  ∧ (∀ a b, __gt__ a b = __lt__ b a)
  ∧ (∀ a, __lt__ a a = false)
  ∧ (∀ a b c, __lt__ a b = true → __lt__ b c = true → __lt__ a c = true)
  ∧ (∀ a b, _node_id a ≠ _node_id b →
            __lt__ a b = true ∨ __lt__ b a = true).
Proof.
  unfold __lt__, __gt__. repeat split.
  - apply Z.ltb_lt.
  - apply Z.ltb_lt.
  - rewrite Z.gtb_ltb, Z.ltb_lt. lia.
  - rewrite Z.gtb_ltb, Z.ltb_lt. lia.
  - intros a b. apply Z.gtb_ltb.
  - intros a. apply Z.ltb_irrefl.
  - intros a b c. rewrite !Z.ltb_lt. lia.
  - intros a b Hne. rewrite !Z.ltb_lt. lia.
Qed.


(** ** The setters *)

Lemma key_of_inj (acc acc' : Accessor) :
  key_of acc = key_of acc' → acc = acc'.
Proof. destruct acc, acc'; simpl; intros E; congruence. Qed.

(** Writing entry [key_of w] of the dict of [a] leaves, on [a], every
    accessor but [w] as it was, and leaves alone every node built over
    another dict. *)
Lemma setitem_frame (a : DAGNode) (w : Accessor) (v : Val) (h : Heap) :
  w ≠ AType →
  let h' := (setitem (data_dict a) (key_of w) v h).2 in
  (h' !!! data_dict a) !! key_of w = Some v
  ∧ (∀ acc, acc ≠ w →
            (get instr_eqb acc a h').1 = (get instr_eqb acc a h).1)
  ∧ (∀ b acc, data_dict b ≠ data_dict a →
              (get instr_eqb acc b h').1 = (get instr_eqb acc b h).1)
  ∧ (∀ b acc, data_dict b = data_dict a →
              (get instr_eqb acc b h').1 = (get instr_eqb acc a h').1).
Proof.
  intros Hw. rewrite setitem_run. cbv zeta. simpl.
  split; [|split; [|split]].
  - rewrite lookup_total_insert_eq. apply lookup_insert_eq.
  - intros acc Hacc. apply get_depends; rewrite lookup_total_insert_eq.
    + apply lookup_insert_ne. intros E. apply Hw.
      apply key_of_inj. exact E.
    + apply lookup_insert_ne. intros E. apply Hacc.
      symmetry. apply key_of_inj. exact E.
  - intros b acc Hb.
    apply get_depends; rewrite lookup_total_insert_ne by congruence;
      reflexivity.
  - intros b acc Hb. apply get_depends; rewrite Hb; reflexivity.
Qed.

(** The write itself: entry [k] of the dict at [p] holds the new value, the
    other entries of that dict are what they were, present or absent, and
    every other dict object is what it was.  So [semantic_eq] of two nodes
    built over other dicts is what it was. *)
Lemma setitem_writes_one_entry (p : Z) (k : string) (v : Val) (h : Heap) :
  let h' := (setitem p k v h).2 in
  (h' !!! p) !! k = Some v
  ∧ (∀ k', k' ≠ k → (h' !!! p) !! k' = (h !!! p) !! k')
  ∧ (∀ p', p' ≠ p → h' !!! p' = h !!! p')
  ∧ (∀ b c, data_dict b ≠ p → data_dict c ≠ p →
            (semantic_eq instr_eqb b c h').1 = (semantic_eq instr_eqb b c h).1).
Proof.
  rewrite setitem_run. cbv zeta. cbn [fst snd].
  split; [|split; [|split]].
  - rewrite lookup_total_insert_eq. apply lookup_insert_eq.
  - intros k' Hk. rewrite lookup_total_insert_eq.
    apply lookup_insert_ne. congruence.
  - intros p' Hp. apply lookup_total_insert_ne. congruence.
  - intros b c Hb Hc. rewrite !semantic_eq_run. cbv zeta. cbn [fst].
    rewrite !(lookup_total_insert_ne h p (data_dict b)) by congruence.
    rewrite !(lookup_total_insert_ne h p (data_dict c)) by congruence.
    reflexivity.
Qed.

(** C8, amended. A setter returns normally and writes one entry of the
    dict of its node: that entry holds the new value, every other entry of
    that dict is what it was, present or absent, and every other dict
    object is untouched.  Hence the accessor of the entry returns the new
    value on the same instance, every other accessor of that instance
    returns what it returned before, reading does not write, and a node
    built over a different dict object is unaffected, in its accessors and
    in [semantic_eq] with any other such node.  A node built over the same
    dict object observes the update like the instance that made it. *)
Theorem setters_frame (a : DAGNode) (h : Heap) :
  (∀ new_name,
     let h' := (name_setter a new_name h).2 in
     (name_setter a new_name h).1 = Ok tt
     ∧ (h' !!! data_dict a) !! "name" = Some (VStr new_name)
     ∧ (∀ k, k ≠ "name" →
             (h' !!! data_dict a) !! k = (h !!! data_dict a) !! k)
     ∧ (∀ p, p ≠ data_dict a → h' !!! p = h !!! p)
     ∧ (∀ b c,
          data_dict b ≠ data_dict a → data_dict c ≠ data_dict a →
          (semantic_eq instr_eqb b c h').1 = (semantic_eq instr_eqb b c h).1)
     ∧ name a h' = (Ok (VStr new_name), h')
     ∧ (∀ acc, acc ≠ AName →
               (get instr_eqb acc a h').1 = (get instr_eqb acc a h).1)
     ∧ (∀ b acc, data_dict b ≠ data_dict a →
                 (get instr_eqb acc b h').1 = (get instr_eqb acc b h).1)
     ∧ (∀ b acc, data_dict b = data_dict a →
                 (get instr_eqb acc b h').1 = (get instr_eqb acc a h').1))
  ∧ (∀ new_qargs,
       let h' := (qargs_setter a new_qargs h).2 in
       (qargs_setter a new_qargs h).1 = Ok tt
       ∧ (h' !!! data_dict a) !! "qargs" = Some (VBits new_qargs)
       ∧ (∀ k, k ≠ "qargs" →
               (h' !!! data_dict a) !! k = (h !!! data_dict a) !! k)
       ∧ (∀ p, p ≠ data_dict a → h' !!! p = h !!! p)
       ∧ (∀ b c,
            data_dict b ≠ data_dict a → data_dict c ≠ data_dict a →
            (semantic_eq instr_eqb b c h').1
            = (semantic_eq instr_eqb b c h).1)
       ∧ qargs a h' = (Ok (VBits new_qargs), h')
       ∧ (∀ acc, acc ≠ AQargs →
                 (get instr_eqb acc a h').1 = (get instr_eqb acc a h).1)
       ∧ (∀ b acc, data_dict b ≠ data_dict a →
                   (get instr_eqb acc b h').1 = (get instr_eqb acc b h).1)
       ∧ (∀ b acc, data_dict b = data_dict a →
                   (get instr_eqb acc b h').1 = (get instr_eqb acc a h').1))
  ∧ (∀ acc b (h0 : Heap), (get instr_eqb acc b h0).2 = h0).
Proof.
  split; [|split].
  - intros new_name. cbv zeta. unfold name_setter.
    pose proof (setitem_frame a AName (VStr new_name) h) as Hframe.
    pose proof (setitem_writes_one_entry
                  (data_dict a) "name" (VStr new_name) h) as Hraw.
    cbv zeta in Hframe, Hraw. change (key_of AName) with "name" in Hframe.
    destruct Hframe as (Hw & Hrest); [discriminate|].
    destruct Hraw as (_ & Hkeys & Hdicts & Hsem).
    split; [reflexivity|]. split; [exact Hw|]. split; [exact Hkeys|].
    split; [exact Hdicts|]. split; [exact Hsem|]. split; [|exact Hrest].
    rewrite name_run. unfold dict_get. rewrite Hw. reflexivity.
  - intros new_qargs. cbv zeta. unfold qargs_setter.
    pose proof (setitem_frame a AQargs (VBits new_qargs) h) as Hframe.
    pose proof (setitem_writes_one_entry
                  (data_dict a) "qargs" (VBits new_qargs) h) as Hraw.
    cbv zeta in Hframe, Hraw. change (key_of AQargs) with "qargs" in Hframe.
    destruct Hframe as (Hw & Hrest); [discriminate|].
    destruct Hraw as (_ & Hkeys & Hdicts & Hsem).
    split; [reflexivity|]. split; [exact Hw|]. split; [exact Hkeys|].
    split; [exact Hdicts|]. split; [exact Hsem|]. split; [|exact Hrest].
    rewrite qargs_run. unfold dict_get. rewrite Hw. reflexivity.
  - intros acc b h0. apply get_heap.
Qed.

(** C10. Take a payload without a ['qargs'] entry whose name is not
    "barrier", and the same payload with an empty ['qargs'] list added.
    Every accessor returns the same on the two nodes, and yet they are not
    [semantic_eq]: the dicts are compared, not what the accessors show. *)
Theorem absent_vs_empty_qargs (a b : DAGNode) (h : Heap) :
  (h !!! data_dict a) !! "qargs" = None →
  h !!! data_dict b = <["qargs" := VBits []]> (h !!! data_dict a) →
  (h !!! data_dict a) !! "name" ≠ Some (VStr "barrier") →
  (∀ acc, (get instr_eqb acc a h).1 = (get instr_eqb acc b h).1)
  ∧ semantic_eq instr_eqb a b h = (Ok false, h).
Proof.
  intros Habs Hb Hname. split.
  - intros acc.
    assert (Hcase : acc = AQargs ∨ acc ≠ AQargs)
      by (destruct acc; auto; right; discriminate).
    destruct Hcase as [-> | Hacc].
    + change (get instr_eqb AQargs) with (@qargs Instruction Bit Register).
      rewrite !qargs_run.
      unfold dict_get. rewrite Hb, Habs, lookup_insert_eq. reflexivity.
    + apply get_depends; rewrite Hb; symmetry; apply lookup_insert_ne.
      * discriminate.
      * intros E. apply Hacc. symmetry. apply key_of_inj. exact E.
  - rewrite (semantic_eq_payload_run a b h _ _
               (name_run a h) (name_run b h)).
    + rewrite Hb, dict_eqb_size; [reflexivity|].
      rewrite map_size_insert_None by exact Habs. lia.
    + intros [Hn _]. apply Hname. unfold dict_get in Hn.
      destruct ((h !!! data_dict a) !! "name"); simpl in Hn; congruence.
Qed.

(** ** More on [==] and on the two branches of [semantic_eq] *)

Lemma fields_agree_trans :
  (∀ i j k, instr_eqb i j = true → instr_eqb j k = true →
            instr_eqb i k = true) →
  ∀ d1 d2 d3 : Dict,
    fields_agree instr_eqb d1 d2 → fields_agree instr_eqb d2 d3 →
    fields_agree instr_eqb d1 d3.
Proof.
  intros Htrans d1 d2 d3 H12 H23 k.
  specialize (H12 k). specialize (H23 k).
  destruct (d1 !! k), (d2 !! k), (d3 !! k); simpl in *;
    try contradiction; eauto using value_same_trans.
Qed.

(** Payloads that agree field by field carry the same name, as far as a
    comparison with a string can tell. *)
Lemma fields_agree_name (d1 d2 : Dict) (s : string) :
  fields_agree instr_eqb d1 d2 →
  dict_get d1 "name" VNone = VStr s ↔ dict_get d2 "name" VNone = VStr s.
Proof.
  intros Hagree. specialize (Hagree "name"). unfold dict_get.
  destruct (d1 !! "name") as [v|], (d2 !! "name") as [w|];
    cbn [field_agrees default] in *; try contradiction; [|reflexivity].
  destruct (value_same_shape v w s Hagree) as [_ Hs].
  split; intros E.
  - pose proof (proj2 (value_eqb_str s v) E) as Hv.
    rewrite Hs in Hv. exact (proj1 (value_eqb_str s w) Hv).
  - pose proof (proj2 (value_eqb_str s w) E) as Hw.
    rewrite <- Hs in Hw. exact (proj1 (value_eqb_str s v) Hw).
Qed.

Lemma list_contains_same (t1 t2 : Val) :
  value_same instr_eqb t1 t2 = true →
  list_contains instr_eqb t1 [VStr "in"; VStr "out"]
  = list_contains instr_eqb t2 [VStr "in"; VStr "out"].
Proof.
  intros Hty. unfold list_contains. cbn [existsb].
  destruct (value_same_shape t1 t2 "in" Hty) as [_ ->].
  destruct (value_same_shape t1 t2 "out" Hty) as [_ ->].
  reflexivity.
Qed.

Lemma qargs_typed_get (d : Dict) :
  qargs_typed d ↔ ∃ l, dict_get d "qargs" (VBits []) = VBits l.
Proof.
  unfold qargs_typed, dict_get.
  destruct (d !! "qargs") as [v|]; simpl.
  - split.
    + intros Ht. destruct (Ht v eq_refl) as [l ->]. eauto.
    + intros [l ->] w Hw. injection Hw as <-. eauto.
  - split; [eauto | intros _ w Hw; discriminate].
Qed.

Lemma dict_get_agrees (d1 d2 : Dict) (k : string) (dflt : Val) :
  fields_agree instr_eqb d1 d2 →
  value_same instr_eqb (dict_get d1 k dflt) (dict_get d2 k dflt) = true.
Proof.
  intros Hagree. specialize (Hagree k). unfold dict_get.
  destruct (d1 !! k), (d2 !! k); cbn [field_agrees default] in *;
    try contradiction; auto using value_same_refl.
Qed.

(** ** Further properties of the methods *)

(** X1. The string of a node identifies the instance: two nodes have the
    same string exactly when they are the same object, whatever their
    payloads and identities. *)
Theorem str_unique (a b : DAGNode) :
  __str__ a = __str__ b ↔ self_id a = self_id b.
Proof.
  unfold __str__. split; [|intros ->; reflexivity].
  intros E.
  assert (Hint : Some (Z.to_int (self_id a)) = Some (Z.to_int (self_id b))).
  { rewrite <- !NilEmpty.isi. rewrite E. reflexivity. }
  injection Hint as Hint.
  rewrite <- (DecimalZ.of_to (self_id a)), <- (DecimalZ.of_to (self_id b)).
  rewrite Hint. reflexivity.
Qed.

(** X2. [op] succeeds exactly when the [type] accessor reports ['op'].  It
    then returns the stored instruction, or [None] when the payload has no
    ['op'] entry; in every other case it raises [QiskitError], and never
    another exception.  It does not write. *)
Theorem op_outcome (self : DAGNode) (h : Heap) :
  (op instr_eqb self h).2 = h
  ∧ ((type self h).1 = Ok (VStr "op") →
     (op instr_eqb self h).1
     = Ok (dict_get (h !!! data_dict self) "op" VNone))
  ∧ ((type self h).1 = Ok (VStr "op") →
     (h !!! data_dict self) !! "op" = None →
     (op instr_eqb self h).1 = Ok VNone)
  ∧ ((type self h).1 ≠ Ok (VStr "op") →
     (op instr_eqb self h).1 = Raise QiskitError).
Proof.
  rewrite op_run, type_run. unfold dict_get. simpl.
  destruct ((h !!! data_dict self) !! "type") as [t|]; simpl.
  - destruct (value_eqb instr_eqb t (VStr "op")) eqn:E.
    + rewrite (value_eqb_sym_str t "op") in E.
      apply value_eqb_str in E. subst t.
      repeat split; auto.
      * intros _ ->. reflexivity.
      * intros Hne. contradiction.
    + repeat split; auto; intros Ht; injection Ht as ->;
        rewrite (value_eqb_refl_str "op") in E; discriminate.
  - repeat split; auto; discriminate.
Qed.

(** X3. [wire] has three outcomes and does not write.  It raises [KeyError]
    exactly when the payload has no ['type'] entry, [QiskitError] exactly
    when the entry is there and is neither ['in'] nor ['out'], and otherwise
    returns the stored wire, or [None] when the payload has no ['wire']
    entry. *)
Theorem wire_outcome (self : DAGNode) (h : Heap) :
  (wire instr_eqb self h).2 = h
  ∧ ((wire instr_eqb self h).1 = Raise KeyError
     ↔ (h !!! data_dict self) !! "type" = None)
  ∧ ((wire instr_eqb self h).1 = Raise QiskitError
     ↔ ∃ t, (h !!! data_dict self) !! "type" = Some t
            ∧ t ≠ VStr "in" ∧ t ≠ VStr "out")
  ∧ ((∃ t, (h !!! data_dict self) !! "type" = Some (VStr t)
           ∧ (t = "in" ∨ t = "out")) →
     (wire instr_eqb self h).1
     = Ok (dict_get (h !!! data_dict self) "wire" VNone)).
Proof.
  split; [rewrite wire_run; reflexivity|].
  destruct ((h !!! data_dict self) !! "type") as [t|] eqn:Ht.
  - assert (Hcase : (t = VStr "in" ∨ t = VStr "out")
                    ∨ (t ≠ VStr "in" ∧ t ≠ VStr "out")).
    { destruct t as [| s | | | |]; try (right; split; discriminate).
      destruct (decide (s = "in")) as [-> | Hin]; [left; left; reflexivity|].
      destruct (decide (s = "out")) as [-> | Hout];
        [left; right; reflexivity|].
      right. split; congruence. }
    destruct Hcase as [Hsup | [Hin Hout]].
    + assert (Hok : wire instr_eqb self h
                    = (Ok (dict_get (h !!! data_dict self) "wire" VNone), h)).
      { destruct Hsup as [-> | ->];
          [ apply (wire_supported self h "in")
          | apply (wire_supported self h "out") ];
          auto. }
      rewrite Hok. simpl. split; [split; discriminate|]. split; [|auto].
      split; [discriminate|].
      intros (t' & Et & Hin & Hout). injection Et as <-.
      destruct Hsup; contradiction.
    + rewrite (wire_unsupported self h t Ht Hin Hout). simpl.
      split; [split; discriminate|]. split.
      * split; [eauto|reflexivity].
      * intros (s & Es & Hs). injection Es as ->.
        destruct Hs as [-> | ->]; contradiction.
  - rewrite wire_run, Ht. simpl.
    split; [split; reflexivity|]. split.
    + split; [discriminate|]. intros (t & Et & _). discriminate.
    + intros (t & Et & _). discriminate.
Qed.

(** X4. Two nodes are tied under [<] and [>] exactly when they carry the
    same identity; two distinct instances built with the same identity (the
    default [-1], say) are then neither smaller, nor greater, nor equal. *)
Theorem order_ties (a b : DAGNode) :
  ((__lt__ a b = false ∧ __gt__ a b = false) ↔ _node_id a = _node_id b)
  ∧ (_node_id a = _node_id b → self_id a ≠ self_id b →
     __lt__ a b = false ∧ __lt__ b a = false ∧ __eq__ a b = false).
Proof.
  unfold __lt__, __gt__, __eq__. rewrite Z.gtb_ltb.
  destruct (Z.ltb_spec (_node_id a) (_node_id b)) as [Hab | Hab];
    destruct (Z.ltb_spec (_node_id b) (_node_id a)) as [Hba | Hba];
    (split;
      [ split; [intros [? ?]; try discriminate; lia
               | intros E; try lia; auto]
      | intros Hid Hself; try lia;
        repeat split; apply Z.eqb_neq; exact Hself ]).
Qed.

(** X5. For a set or a dict, two nodes are the same key exactly when they
    are the same instance, for any [hash]; and nodes equal for [==] have
    equal hashes, as a hashable type must. *)
Theorem same_key_is_identity (a b : DAGNode) :
  (same_key hash a b = true ↔ self_id a = self_id b)
  ∧ (__eq__ a b = true → __hash__ hash a = __hash__ hash b).
Proof.
  unfold same_key, __hash__, __eq__. split.
  - rewrite andb_true_iff, orb_diag, !Z.eqb_eq. split.
    + intros [_ E]. exact E.
    + intros E. rewrite E. auto.
  - rewrite Z.eqb_eq. intros ->. reflexivity.
Qed.

(** X6. The setters compose as assignments do: of two writes of the same
    attribute of a node the last one wins, a name write and an operand
    write commute on any two nodes, and two name writes commute when the
    nodes are built over different dict objects. *)
Theorem setters_compose
    (a b : DAGNode) (h : Heap) (x y : string) (l k : list Bit) :
  (name_setter a y (name_setter a x h).2).2 = (name_setter a y h).2
  ∧ (qargs_setter a k (qargs_setter a l h).2).2 = (qargs_setter a k h).2
  ∧ (qargs_setter b l (name_setter a x h).2).2
    = (name_setter a x (qargs_setter b l h).2).2
  ∧ (data_dict a ≠ data_dict b →
     (name_setter b y (name_setter a x h).2).2
     = (name_setter a x (name_setter b y h).2).2).
Proof.
  unfold name_setter, qargs_setter. rewrite !setitem_run. simpl.
  split; [|split; [|split]].
  - rewrite lookup_total_insert_eq, !insert_insert_eq. reflexivity.
  - rewrite lookup_total_insert_eq, !insert_insert_eq. reflexivity.
  - destruct (decide (data_dict a = data_dict b)) as [E | Hne].
    + rewrite E, !lookup_total_insert_eq, !insert_insert_eq.
      f_equal. apply insert_insert_ne. discriminate.
    + rewrite !lookup_total_insert_ne by congruence.
      apply insert_insert_ne. congruence.
  - intros Hne. rewrite !lookup_total_insert_ne by congruence.
    apply insert_insert_ne. congruence.
Qed.

(** X7. [semantic_eq] never writes, and it returns a boolean whenever the
    ['qargs'] entries of both payloads are lists or missing.  The only
    exception it can raise is [TypeError], and only on two nodes both named
    "barrier" of which one holds something else than a list under
    ['qargs']. *)
Theorem semantic_eq_outcome (a b : DAGNode) (h : Heap) :
  (semantic_eq instr_eqb a b h).2 = h
  ∧ (qargs_typed (h !!! data_dict a) → qargs_typed (h !!! data_dict b) →
     ∃ r, (semantic_eq instr_eqb a b h).1 = Ok r)
  ∧ (∀ e, (semantic_eq instr_eqb a b h).1 = Raise e →
          e = TypeError
          ∧ (name a h).1 = Ok (VStr "barrier")
          ∧ (name b h).1 = Ok (VStr "barrier")
          ∧ ¬ (qargs_typed (h !!! data_dict a)
               ∧ qargs_typed (h !!! data_dict b))).
Proof.
  pose proof (qargs_typed_get (h !!! data_dict a)) as Hta.
  pose proof (qargs_typed_get (h !!! data_dict b)) as Htb.
  rewrite semantic_eq_run, !name_run. cbv zeta. cbn [fst snd].
  split; [reflexivity|].
  set (na := dict_get (h !!! data_dict a) "name" VNone).
  set (nb := dict_get (h !!! data_dict b) "name" VNone).
  destruct (value_eqb instr_eqb (VStr "barrier") na
            && value_eqb instr_eqb na nb) eqn:E.
  - apply barrier_test in E as [Ena Enb].
    destruct (dict_get (h !!! data_dict a) "qargs" (VBits [])) eqn:Ea;
      destruct (dict_get (h !!! data_dict b) "qargs" (VBits [])) eqn:Eb;
      cbv beta iota;
      (split;
       [ intros [? ?]%Hta [? ?]%Htb; try discriminate; eauto
       | intros e He;
         first
           [ discriminate
           | injection He as <-;
             split; [reflexivity|]; split; [rewrite Ena; reflexivity|];
             split; [rewrite Enb; reflexivity|];
             intros [[? ?]%Hta [? ?]%Htb]; discriminate ] ]).
  - cbv beta iota. split; [eauto | intros e He; discriminate].
Qed.

(** X8. [semantic_eq] is transitive, when the instructions' own [__eq__]
    is: if it is true of [a] and [b] and true of [b] and [c], it is true of
    [a] and [c].  The two branches never mix, since payloads that agree
    field by field carry the same name. *)
Theorem semantic_eq_transitive (a b c : DAGNode) (h : Heap) :
  (∀ i j k, instr_eqb i j = true → instr_eqb j k = true →
            instr_eqb i k = true) →
  semantic_eq instr_eqb a b h = (Ok true, h) →
  semantic_eq instr_eqb b c h = (Ok true, h) →
  semantic_eq instr_eqb a c h = (Ok true, h).
Proof.
  intros Htrans. rewrite !semantic_eq_run. cbv zeta.
  set (na := dict_get (h !!! data_dict a) "name" VNone).
  set (nb := dict_get (h !!! data_dict b) "name" VNone).
  set (nc := dict_get (h !!! data_dict c) "name" VNone).
  destruct (value_eqb instr_eqb (VStr "barrier") na
            && value_eqb instr_eqb na nb) eqn:Eab.
  - apply barrier_test in Eab as [Ea Eb].
    destruct (dict_get (h !!! data_dict a) "qargs" (VBits [])) as
      [| | | l1 | |]; try discriminate.
    destruct (dict_get (h !!! data_dict b) "qargs" (VBits [])) as
      [| | | l2 | |]; try discriminate.
    intros H12. injection H12 as H12. apply bool_decide_eq_true in H12.
    destruct (value_eqb instr_eqb (VStr "barrier") nb
              && value_eqb instr_eqb nb nc) eqn:Ebc.
    + apply barrier_test in Ebc as [_ Ec].
      rewrite (proj2 (barrier_test na nc)) by auto.
      destruct (dict_get (h !!! data_dict c) "qargs" (VBits [])) as
        [| | | l3 | |]; try discriminate.
      intros H23. injection H23 as H23. apply bool_decide_eq_true in H23.
      rewrite bool_decide_eq_true_2 by congruence. reflexivity.
    + intros H23. injection H23 as H23. apply dict_eqb_spec in H23.
      apply (fields_agree_name _ _ "barrier") in H23.
      rewrite (proj2 (barrier_test nb nc)) in Ebc; [discriminate|].
      split; [exact Eb | apply H23; exact Eb].
  - intros H12. injection H12 as H12. apply dict_eqb_spec in H12.
    pose proof (fields_agree_name _ _ "barrier" H12) as Hname.
    destruct (value_eqb instr_eqb (VStr "barrier") nb
              && value_eqb instr_eqb nb nc) eqn:Ebc.
    + apply barrier_test in Ebc as [Eb _].
      rewrite (proj2 (barrier_test na nb)) in Eab; [discriminate|].
      split; [apply Hname; exact Eb | exact Eb].
    + intros H23. injection H23 as H23. apply dict_eqb_spec in H23.
      destruct (value_eqb instr_eqb (VStr "barrier") na
                && value_eqb instr_eqb na nc) eqn:Eac.
      * apply barrier_test in Eac as [Ea _].
        rewrite (proj2 (barrier_test na nb)) in Eab; [discriminate|].
        split; [exact Ea | apply Hname; exact Ea].
      * rewrite (proj2 (dict_eqb_spec _ _)); [reflexivity|].
        exact (fields_agree_trans Htrans _ _ _ H12 H23).
Qed.

(** X9. Outside the barrier case, nodes that are [semantic_eq] agree
    through the accessors: each of the seven accessors gives on both the
    same exception, or two values of which one is the other or equals it
    for [==].  When the instructions' [__eq__] never denies that an
    instruction equals itself, the two values are equal for [==]. *)
Theorem semantic_eq_accessors_agree
    (a b : DAGNode) (h : Heap) (n1 n2 : Val) :
  name a h = (Ok n1, h) →
  name b h = (Ok n2, h) →
  ¬ (n1 = VStr "barrier" ∧ n2 = VStr "barrier") →
  semantic_eq instr_eqb a b h = (Ok true, h) →
  (∀ acc, outcome_agrees instr_eqb
            (get instr_eqb acc a h).1 (get instr_eqb acc b h).1)
  ∧ ((∀ i, instr_eqb i i = true) →
     ∀ acc, outcome_equal instr_eqb
              (get instr_eqb acc a h).1 (get instr_eqb acc b h).1).
Proof.
  intros Ha Hb Hnot.
  rewrite (semantic_eq_payload_run a b h n1 n2 Ha Hb Hnot).
  intros Heq. injection Heq as Heq. apply dict_eqb_spec in Heq.
  pose proof (Heq "type") as Hty.
  assert (Hall : ∀ acc, outcome_agrees instr_eqb
                          (get instr_eqb acc a h).1 (get instr_eqb acc b h).1).
  { intros acc.
    destruct acc; simpl get;
      rewrite ?type_run, ?name_run, ?qargs_run, ?cargs_run, ?condition_run,
        ?op_run, ?wire_run; cbn [fst snd outcome_agrees];
      try (apply dict_get_agrees; exact Heq).
    - destruct ((h !!! data_dict a) !! "type") as [t1|],
               ((h !!! data_dict b) !! "type") as [t2|];
        cbn [field_agrees] in Hty; try contradiction; [|reflexivity].
      destruct (value_same_shape t1 t2 "op" Hty) as [-> _].
      destruct (value_eqb instr_eqb t2 (VStr "op")); [|reflexivity].
      apply dict_get_agrees; exact Heq.
    - destruct ((h !!! data_dict a) !! "type") as [t1|],
               ((h !!! data_dict b) !! "type") as [t2|];
        cbn [field_agrees] in Hty; try contradiction; [|reflexivity].
      rewrite (list_contains_same t1 t2 Hty).
      destruct (list_contains instr_eqb t2 [VStr "in"; VStr "out"]);
        [|reflexivity].
      apply dict_get_agrees; exact Heq. }
  split; [exact Hall|].
  intros Hrefl acc. specialize (Hall acc).
  destruct (get instr_eqb acc a h).1, (get instr_eqb acc b h).1;
    cbn [outcome_agrees outcome_equal] in *; auto.
  rewrite <- (value_same_eqb Hrefl). exact Hall.
Qed.

(** X10. Writing to a node the operands its accessor already shows is not
    a no-op.  Take two nodes over different dict objects with equal
    payloads, without a ['qargs'] entry and not named "barrier": they are
    [semantic_eq].  After [a.qargs = []] every accessor of every node still
    returns what it returned, and yet the two nodes are no longer
    [semantic_eq], because the write created the entry. *)
Theorem silent_write_breaks_semantic_eq (a b : DAGNode) (h : Heap) :
  (∀ i, instr_eqb i i = true) →
  data_dict a ≠ data_dict b →
  h !!! data_dict a = h !!! data_dict b →
  (h !!! data_dict a) !! "qargs" = None →
  (h !!! data_dict a) !! "name" ≠ Some (VStr "barrier") →
  let h' := (qargs_setter a [] h).2 in
  semantic_eq instr_eqb a b h = (Ok true, h)
  ∧ (∀ acc x, (get instr_eqb acc x h').1 = (get instr_eqb acc x h).1)
  ∧ semantic_eq instr_eqb a b h' = (Ok false, h').
Proof.
  intros Hrefl Hne Hpayload Habs Hname. cbv zeta.
  unfold qargs_setter. rewrite setitem_run. cbn [fst snd].
  set (d := h !!! data_dict a) in *.
  assert (Hnot : ∀ n2 : Val,
             ¬ (dict_get d "name" VNone = VStr "barrier"
                ∧ n2 = VStr "barrier")).
  { intros n2 [Hn _]. apply Hname. unfold dict_get in Hn.
    destruct (d !! "name"); simpl in Hn; congruence. }
  split; [|split].
  - rewrite (semantic_eq_payload_run a b h _ _
               (name_run a h) (name_run b h)) by apply Hnot.
    fold d. rewrite <- Hpayload, dict_eqb_refl. reflexivity.
  - intros acc x.
    destruct (decide (data_dict x = data_dict a)) as [Ex | Hx].
    + assert (Hcase : acc = AQargs ∨ acc ≠ AQargs)
        by (destruct acc; auto; right; discriminate).
      destruct Hcase as [-> | Hacc].
      * change (get instr_eqb AQargs) with (@qargs Instruction Bit Register).
        rewrite !qargs_run. unfold dict_get.
        rewrite Ex, lookup_total_insert_eq, lookup_insert_eq.
        fold d. rewrite Habs. reflexivity.
      * apply get_depends; rewrite Ex, lookup_total_insert_eq; fold d;
          apply lookup_insert_ne.
        -- discriminate.
        -- intros E. apply Hacc. symmetry. apply key_of_inj. exact E.
    + apply get_depends; rewrite lookup_total_insert_ne by congruence;
        reflexivity.
  - set (h' := <[data_dict a := <["qargs" := VBits []]> d]> h).
    assert (Ha : h' !!! data_dict a = <["qargs" := VBits []]> d)
      by apply lookup_total_insert_eq.
    assert (Hb : h' !!! data_dict b = d).
    { unfold h'. rewrite lookup_total_insert_ne by congruence.
      symmetry. exact Hpayload. }
    rewrite (semantic_eq_payload_run a b h' _ _
               (name_run a h') (name_run b h')).
    + rewrite Ha, Hb, dict_eqb_size; [reflexivity|].
      rewrite map_size_insert_None by exact Habs. lia.
    + rewrite Ha. unfold dict_get at 1.
      rewrite lookup_insert_ne by discriminate. apply Hnot.
Qed.

End Properties.

(** * The concrete nodes, evaluated *)
Module CircuitFacts.

Import Circuit.

Example x_identical :
  semantic_eq gate_eqb x01 x01' store0 = (Ok true, store0).
Proof. reflexivity. Qed.

Example x_reordered :
  semantic_eq gate_eqb x01 x10 store0 = (Ok false, store0).
Proof. reflexivity. Qed.

Example barrier_reordered :
  semantic_eq gate_eqb barrier01 barrier10 store0 = (Ok true, store0).
Proof. reflexivity. Qed.

Example barrier_other_operands :
  semantic_eq gate_eqb barrier01 barrier0 store0 = (Ok false, store0).
Proof. reflexivity. Qed.

Example op_on_input_terminal :
  op gate_eqb input0 store0 = (Raise QiskitError, store0).
Proof. reflexivity. Qed.

Example wire_on_operation :
  wire gate_eqb x01 store0 = (Raise QiskitError, store0).
Proof. reflexivity. Qed.

Example wire_on_input_terminal :
  wire gate_eqb input0 store0 = (Ok (VBit 0%nat), store0).
Proof. reflexivity. Qed.

Example op_on_operation :
  op gate_eqb x01 store0 = (Ok (VOp "x"), store0).
Proof. reflexivity. Qed.

Example op_on_blank : op gate_eqb blank store0 = (Raise QiskitError, store0).
Proof. reflexivity. Qed.

Example wire_on_blank : wire gate_eqb blank store0 = (Raise KeyError, store0).
Proof. reflexivity. Qed.

(** ** The theorems at these nodes *)

Lemma semantic_eq_barrier_witness :
  (∃ r, semantic_eq gate_eqb barrier01 barrier10 store0 = (Ok r, store0)
        ∧ (r = true ↔ ∀ q, q ∈ [0; 1]%nat ↔ q ∈ [1; 0]%nat))
  ∧ ([0; 1]%nat ≡ₚ [1; 0]%nat →
     semantic_eq gate_eqb barrier01 barrier10 store0 = (Ok true, store0)).
Proof.
  apply (semantic_eq_barrier gate_eqb barrier01 barrier10 store0);
    reflexivity.
Defined.

Lemma semantic_eq_barrier_multiplicity_witness :
  semantic_eq gate_eqb barrier00 barrier0 store0 = (Ok true, store0).
Proof.
  apply (semantic_eq_barrier_multiplicity gate_eqb barrier00 barrier0
           store0 0%nat); reflexivity.
Defined.

Lemma semantic_eq_payload_witness :
  ∃ r, semantic_eq gate_eqb x01 x10 store0 = (Ok r, store0)
       ∧ (r = true ↔ fields_agree gate_eqb (store0 !!! 1) (store0 !!! 3))
       ∧ ((∀ i, gate_eqb i i = true) →
          (r = true ↔ fields_equal gate_eqb (store0 !!! 1) (store0 !!! 3)))
       ∧ (store0 !!! 1 = store0 !!! 3 → r = true)
       ∧ (∀ l1 l2,
            (store0 !!! 1) !! "qargs" = Some (VBits l1) →
            (store0 !!! 3) !! "qargs" = Some (VBits l2) →
            l1 ≠ l2 → r = false).
Proof.
  apply (semantic_eq_payload gate_eqb x01 x10 store0 (VStr "x") (VStr "x")).
  - reflexivity.
  - reflexivity.
  - intros [E _]. discriminate E.
Defined.

Lemma semantic_eq_symmetric_witness :
  semantic_eq gate_eqb barrier01 x10 store0
  = semantic_eq gate_eqb x10 barrier01 store0.
Proof.
  apply (semantic_eq_symmetric gate_eqb barrier01 x10 store0).
  exact String.eqb_sym.
Defined.

Lemma operands_total_witness :
  (∃ v, qargs input0 store0 = (Ok v, store0)
        ∧ ((store0 !!! 8) !! "qargs" = None → v = VBits [])
        ∧ (qargs_typed (store0 !!! 8) → ∃ l, v = VBits l))
  ∧ (∃ v, cargs input0 store0 = (Ok v, store0)
          ∧ ((store0 !!! 8) !! "cargs" = None → v = VBits [])
          ∧ (cargs_typed (store0 !!! 8) → ∃ l, v = VBits l)).
Proof. exact (operands_total input0 store0). Defined.


Lemma absent_vs_empty_qargs_witness :
  (∀ acc, (get gate_eqb acc bare store0).1
          = (get gate_eqb acc bare_empty store0).1)
  ∧ semantic_eq gate_eqb bare bare_empty store0 = (Ok false, store0).
Proof.
  apply (absent_vs_empty_qargs gate_eqb bare bare_empty store0).
  - reflexivity.
  - reflexivity.
  - intros E. vm_compute in E. discriminate E.
Defined.

(** C8 as stated fails: a node that shares its dict object with the node
    being renamed changes its name too, although it is another instance.
    [x_alias] and [x01] are both built over the dict at address 1. *)
Lemma setter_reaches_alias :
  ¬ (∀ (a b : DAGNode) (h : Store) (new_name : string),
       self_id a ≠ self_id b →
       (@name string nat string b (name_setter a new_name h).2).1
       = (name b h).1).
Proof.
  intros Hall.
  specialize (Hall x01 x_alias store0 "y").
  assert (Hne : self_id x01 ≠ self_id x_alias) by (simpl; lia).
  specialize (Hall Hne). vm_compute in Hall. discriminate Hall.
Qed.

Lemma setters_frame_witness :
  data_dict x10 ≠ data_dict x01
  ∧ (name x01 (name_setter x01 "y" store0).2).1 = Ok (VStr "y")
  ∧ (name x10 (name_setter x01 "y" store0).2).1 = Ok (VStr "x")
  ∧ (name x_alias (name_setter x01 "y" store0).2).1 = Ok (VStr "y")
  ∧ ((name_setter x01 "y" store0).2 !!! 1) !! "cargs"
    = (store0 !!! 1) !! "cargs"
  ∧ (name_setter x01 "y" store0).2 !!! 3 = store0 !!! 3
  ∧ (semantic_eq gate_eqb barrier01 barrier10
       (name_setter x01 "y" store0).2).1
    = (semantic_eq gate_eqb barrier01 barrier10 store0).1.
Proof.
  pose proof (setters_frame gate_eqb x01 store0) as (Hname & _ & _).
  specialize (Hname "y"). cbv zeta in Hname.
  destruct Hname as
    (_ & _ & Hkeys & Hdicts & Hsem & Hnew & _ & Hother & Halias).
  assert (Hne : data_dict x10 ≠ data_dict x01) by (simpl; lia).
  split; [exact Hne|]. split; [exact (f_equal fst Hnew)|].
  split; [|split; [|split; [|split]]].
  - etransitivity; [exact (Hother x10 AName Hne) | reflexivity].
  - etransitivity; [exact (Halias x_alias AName eq_refl) |].
    exact (f_equal fst Hnew).
  - apply (Hkeys "cargs"). discriminate.
  - apply (Hdicts 3). simpl. lia.
  - apply (Hsem barrier01 barrier10); simpl; lia.
Defined.

(** ** Further evaluations *)

(** Two payloads that hold one and the same instruction are equal for the
    dict comparison even when the instruction's [__eq__] denies it, and so
    are the nodes for [semantic_eq]; their [op] values are then the same
    object without being equal for [==]. *)
Example shared_instruction_denying_eq :
  semantic_eq (λ _ _ : string, false) x01 x01' store0 = (Ok true, store0)
  ∧ value_eqb (λ _ _ : string, false)
      (VOp "x" : Val) (VOp "x") = false
  ∧ value_same (λ _ _ : string, false)
      (VOp "x" : Val) (VOp "x") = true.
Proof. repeat split. Qed.

Example str_of_x01 : __str__ x01 = "101".
Proof. reflexivity. Qed.

Example op_entry_missing :
  op gate_eqb op_without_op store1 = (Ok VNone, store1).
Proof. reflexivity. Qed.

Example wire_type_is_None :
  type untyped store1 = (Ok VNone, store1)
  ∧ wire gate_eqb untyped store1 = (Raise QiskitError, store1).
Proof. split; reflexivity. Qed.

Example wire_type_missing :
  type blank store1 = (Ok VNone, store1)
  ∧ wire gate_eqb blank store1 = (Raise KeyError, store1).
Proof. split; reflexivity. Qed.

Example blanks_unordered :
  __lt__ blank blank' = false ∧ __gt__ blank blank' = false
  ∧ __eq__ blank blank' = false.
Proof. repeat split. Qed.

Example barrier_with_None_operands :
  (semantic_eq gate_eqb untyped untyped
     (setitem 2 "qargs" VNone (name_setter untyped "barrier" store1).2).2).1
  = Raise TypeError.
Proof. reflexivity. Qed.

Lemma gate_eqb_trans (i j k : string) :
  gate_eqb i j = true → gate_eqb j k = true → gate_eqb i k = true.
Proof.
  unfold gate_eqb. rewrite !String.eqb_eq. congruence.
Qed.

Lemma semantic_eq_transitive_witness :
  semantic_eq gate_eqb x01' x_alias store0 = (Ok true, store0).
Proof.
  apply (semantic_eq_transitive gate_eqb x01' x01 x_alias store0).
  - exact gate_eqb_trans.
  - reflexivity.
  - reflexivity.
Defined.

Lemma semantic_eq_accessors_agree_witness :
  outcome_agrees gate_eqb (op gate_eqb x01 store0).1 (op gate_eqb x01' store0).1
  ∧ outcome_agrees gate_eqb
      (wire gate_eqb x01 store0).1 (wire gate_eqb x01' store0).1
  ∧ outcome_equal gate_eqb
      (op gate_eqb x01 store0).1 (op gate_eqb x01' store0).1
  ∧ outcome_equal gate_eqb (qargs x01 store0).1 (qargs x01' store0).1.
Proof.
  destruct (semantic_eq_accessors_agree gate_eqb x01 x01' store0
              (VStr "x") (VStr "x")) as [Hall Hequal].
  - reflexivity.
  - reflexivity.
  - intros [E _]. discriminate E.
  - reflexivity.
  - split; [exact (Hall AOp)|]. split; [exact (Hall AWire)|].
    split; [exact (Hequal String.eqb_refl AOp)
           | exact (Hequal String.eqb_refl AQargs)].
Defined.

Lemma silent_write_breaks_semantic_eq_witness :
  semantic_eq gate_eqb blank blank' store0 = (Ok true, store0)
  ∧ (∀ acc x,
       (get gate_eqb acc x (qargs_setter blank [] store0).2).1
       = (get gate_eqb acc x store0).1)
  ∧ semantic_eq gate_eqb blank blank' (qargs_setter blank [] store0).2
    = (Ok false, (qargs_setter blank [] store0).2).
Proof.
  apply (silent_write_breaks_semantic_eq gate_eqb blank blank' store0).
  - exact String.eqb_refl.
  - simpl. lia.
  - reflexivity.
  - reflexivity.
  - intros E. vm_compute in E. discriminate E.
Defined.

End CircuitFacts.
